(** * The popup widget plugin of the WYSIWYG editor

    A shallow embedding of
    - [apps/editor/src/plugins/popupWidget.ts]: the class [PopupWidget]
      (the plugin view that shows one floating element under
      [document.body]) and the plugin [addWidget()] with its state field;
    - [apps/editor/src/wysiwyg/wwEditor.ts]: [dispatchTransaction] and
      [WysiwygEditor.addWidget];
    - [apps/editor/src/base.ts]: [emitChangeEvent], [setPlaceholder],
      [setHeight] and [setMinHeight].

    The code is imperative: it mutates the DOM ([document.body], inline
    styles, event listeners, input focus) and the field [this.popup].
    All of that is one record, [World], passed explicitly; a method is a
    function [World → Outcome], where an outcome is a normal return or a
    thrown exception together with the world the mutations made so far
    have left behind.

    Modelling conventions.
    - Elements are handles ([nat]).  They range over the elements that can
      be handed in as a widget: elements other than [document.body], its
      ancestors and the editor's own surface.  The editor's container
      [this.el] has a handle too, used for its inline style only.
    - Pixel quantities are JavaScript numbers; they are modelled by [Z]
      (whole pixels), and [`${n}px`] by the decimal rendering of [n].
      Where a statement rests on a law of exact arithmetic, the same
      expression is also given in binary64, the arithmetic the code runs
      in ([topOffset64]).
    - The layout engine and the editor's position-to-coordinate lookup are
      not part of this code: the first is the field [layout] of the world,
      the second the field [coordsAtPos] of the view. *)

From stdpp Require Import base option list gmap strings pretty.
From Stdlib Require Import ZArith.
From Stdlib Require SpecFloat.

Abbreviation Elem := nat.

(** ** Widgets and the plugin state *)

(** Modelled from the spec: the declaration of [WidgetStyle] ([@t/editor])
    is not among the sources.  The spec gives a two-valued placement hint,
    "above" and "below", and notes that the source spells them top-like
    and ['bottom']; [update] compares with ['bottom'] only. *)
Inductive WidgetStyle := StyleTop | StyleBottom.

(** [interface Widget { node; style; pos }] *)
Record Widget := mkWidget { node : Elem; style : WidgetStyle; pos : Z }.

(** What the plugin's state field and a transaction's metadata slot can
    hold: [null], [undefined] or a widget object. *)
Inductive PluginValue := PNull | PUndefined | PWidget (w : Widget).

(** JavaScript truthiness, as tested by [if (widget)]. *)
Definition truthy (v : PluginValue) : option Widget :=
  match v with
  | PWidget w => Some w
  | PNull | PUndefined => None
  end.

Record Selection := mkSelection { from : Z; to : Z }.

(** The part of the editor state this code reads: the selection and the
    field of the plugin registered under the key ['widget']. *)
Record EditorState := mkEditorState {
  selection : Selection;
  widgetField : PluginValue
}.

Record Transaction := mkTransaction {
  trSelection : Selection;
  meta : gmap string PluginValue;
  docChanged : bool
}.

(** [tr.getMeta(key)]: the stored value, [undefined] when there is none. *)
Definition getMeta (tr : Transaction) (key : string) : PluginValue :=
  default PUndefined (meta tr !! key).

(** [tr.setMeta(key, value)] *)
Definition setMeta (tr : Transaction) (key : string) (v : PluginValue) : Transaction :=
  {| trSelection := trSelection tr;
     meta := <[key := v]> (meta tr);
     docChanged := docChanged tr |}.

(** [state.tr]: a fresh transaction on the state, without metadata. *)
Definition tr (st : EditorState) : Transaction :=
  {| trSelection := selection st; meta := ∅; docChanged := false |}.

Module Coords.
(** The rectangle [view.coordsAtPos] returns, as far as it is read. *)
Record t := mk { top : Z; left : Z; bottom : Z }.
End Coords.

(** The view handed to the plugin view: its current state and the
    position-to-coordinate lookup, [None] where the lookup throws. *)
Record EditorView := mkEditorView {
  state : EditorState;
  coordsAtPos : Z → option Coords.t
}.

(** ** The world the manager acts on *)

(** The calls made on the collaborators, in order. *)
Inductive Call :=
  | AddBlurListener
  | RemoveBlurListener
  | RemoveChild (n : Elem)
  | AppendChild (n : Elem)
  | Css (n : Elem) (props : list (string * string))
  | CoordsAtPos (p : Z)
  | Focus
  | Emit (event : string).

Record World := mkWorld {
  (** the children of [document.body], in document order *)
  body : list Elem;
  (** the inline style of every element, property by property *)
  styles : gmap Elem (gmap string string);
  (** [node.clientHeight], as the layout engine computes it from the
      children of the body and the inline styles *)
  layout : list Elem → gmap Elem (gmap string string) → Elem → Z;
  (** is [removeWidget] registered for ['blur'] on [view.dom] *)
  blurHook : bool;
  (** does the editing surface hold the input focus *)
  hostFocused : bool;
  (** [this.popup] *)
  popup : option Elem;
  (** the calls made so far *)
  log : list Call
}.

Inductive Exn :=
  | NotFoundError   (* removeChild: the node is not a child of this node *)
  | PositionError.  (* coordsAtPos: the position cannot be resolved *)

Inductive Outcome :=
  | Done (s : World)
  | Thrown (e : Exn) (s : World).

Definition world_of (o : Outcome) : World :=
  match o with Done s | Thrown _ s => s end.

Definition andThen (o : Outcome) (k : World → Outcome) : Outcome :=
  match o with
  | Done s => k s
  | Thrown e s => Thrown e s
  end.

Definition logCall (c : Call) (s : World) : World :=
  {| body := body s; styles := styles s; layout := layout s;
     blurHook := blurHook s; hostFocused := hostFocused s;
     popup := popup s; log := log s ++ [c] |}.

Definition set_body (b : list Elem) (s : World) : World :=
  {| body := b; styles := styles s; layout := layout s;
     blurHook := blurHook s; hostFocused := hostFocused s;
     popup := popup s; log := log s |}.

Definition set_styles (m : gmap Elem (gmap string string)) (s : World) : World :=
  {| body := body s; styles := m; layout := layout s;
     blurHook := blurHook s; hostFocused := hostFocused s;
     popup := popup s; log := log s |}.

Definition set_blurHook (b : bool) (s : World) : World :=
  {| body := body s; styles := styles s; layout := layout s;
     blurHook := b; hostFocused := hostFocused s;
     popup := popup s; log := log s |}.

Definition set_hostFocused (b : bool) (s : World) : World :=
  {| body := body s; styles := styles s; layout := layout s;
     blurHook := blurHook s; hostFocused := b;
     popup := popup s; log := log s |}.

Definition set_popup (p : option Elem) (s : World) : World :=
  {| body := body s; styles := styles s; layout := layout s;
     blurHook := blurHook s; hostFocused := hostFocused s;
     popup := p; log := log s |}.

(** *** DOM operations *)

(** [document.body.removeChild(n)]: throws unless [n] is a child. *)
Definition removeChild (n : Elem) (s : World) : Outcome :=
  if decide (n ∈ body s)
  then Done (logCall (RemoveChild n) (set_body (filter (λ x, x ≠ n) (body s)) s))
  else Thrown NotFoundError s.

(** [document.body.appendChild(n)]: [n] leaves the place it had, if any,
    and becomes the last child. *)
Definition appendChild (n : Elem) (s : World) : World :=
  logCall (AppendChild n) (set_body (filter (λ x, x ≠ n) (body s) ++ [n]) s).

(** [css(n, props)] (tui-code-snippet): [n.style[key] = value] for every
    property given, in order. *)
Definition css (n : Elem) (props : list (string * string)) (s : World) : World :=
  logCall (Css n props)
    (set_styles
       (<[n := foldl (λ st kv, <[kv.1 := kv.2]> st) (default ∅ (styles s !! n)) props]>
          (styles s)) s).

(** [n.style[key]], the empty string when the property is not set. *)
Definition styleOf (s : World) (n : Elem) (key : string) : string :=
  default "" (default ∅ (styles s !! n) !! key).

(** [n.clientHeight] *)
Definition clientHeight (s : World) (n : Elem) : Z :=
  layout s (body s) (styles s) n.

(** [view.focus()] *)
Definition focus (s : World) : World :=
  logCall Focus (set_hostFocused true s).

(** [`${n}px`] *)
Definition px (n : Z) : string := pretty n +:+ "px".

(** ** The plugin view: [class PopupWidget] *)

Module PopupWidget.

(** [pluginKey.getState(view.state)] *)
Definition getState (st : EditorState) : PluginValue := widgetField st.

(** [constructor(view)]: [popup] starts as [null] and [removeWidget]
    is registered for ['blur']. *)
Definition new (s : World) : World :=
  set_popup None (logCall AddBlurListener (set_blurHook true s)).

Definition removeWidget (s : World) : Outcome :=
  match popup s with
  | Some p => andThen (removeChild p s) (λ s1, Done (set_popup None s1))
  | None => Done s
  end.

Definition update (view : EditorView) (s : World) : Outcome :=
  let widget := getState (state view) in
  andThen (removeWidget s) (λ s1,
    match truthy widget with
    | Some w =>
        let s2 := logCall (CoordsAtPos (pos w)) s1 in
        match coordsAtPos view (pos w) with
        | None => Thrown PositionError s2
        | Some c =>
            let height := (Coords.bottom c - Coords.top c)%Z in
            let s3 := css (node w)
                        [("position", "absolute");
                         ("left", px (Coords.left c));
                         ("opacity", "0")] s2 in
            let s4 := appendChild (node w) s3 in
            let s5 := css (node w)
                        [("top", px (match style w with
                                     | StyleBottom => Coords.top c + height
                                     | StyleTop =>
                                         Coords.top c - clientHeight s4 (node w) - height
                                     end)%Z);
                         ("opacity", "1")] s4 in
            let s6 := set_popup (Some (node w)) s5 in
            Done (focus s6)
        end
    | None => Done s1
    end).

Definition destroy (s : World) : Outcome :=
  Done (logCall RemoveBlurListener (set_blurHook false s)).

End PopupWidget.

(** The browser delivering ['blur'] to [view.dom]: the surface no longer
    holds the focus and the registered listener runs. *)
Definition blurEvent (s : World) : Outcome :=
  let s1 := set_hostFocused false s in
  if blurHook s1 then PopupWidget.removeWidget s1 else Done s1.

(** ** The plugin: [addWidget()] in popupWidget.ts *)

Module Plugin.

(** [state.init()] *)
Definition init : PluginValue := PNull.

(** [state.apply(tr)] *)
Definition apply (tr : Transaction) : PluginValue := getMeta tr "widget".

End Plugin.

(** [EditorState.create]: every plugin field starts from its [init]. *)
Definition createState (sel : Selection) : EditorState :=
  {| selection := sel; widgetField := Plugin.init |}.

(** [state.applyTransaction(tr).state]: the selection is the
    transaction's, the plugin field is recomputed by [apply]. *)
Definition applyTransaction (st : EditorState) (tr : Transaction) : EditorState :=
  {| selection := trSelection tr; widgetField := Plugin.apply tr |}.

(** ** The editor: wwEditor.ts and base.ts *)

Module WysiwygEditor.

(** [emitChangeEvent(tr)] *)
Definition emitChangeEvent (tr : Transaction) (s : World) : World :=
  let s1 := logCall (Emit "caretChange") s in
  if docChanged tr then logCall (Emit "change") s1 else s1.

(** [view.updateState(state)]: the view takes the new state, then its
    plugin views are updated. *)
Definition updateState (view : EditorView) (st : EditorState) (s : World)
    : EditorView * Outcome :=
  let view' := {| state := st; coordsAtPos := coordsAtPos view |} in
  (view', PopupWidget.update view' s).

(** [dispatchTransaction] of [createView] *)
Definition dispatchTransaction (tr : Transaction) (view : EditorView) (s : World)
    : EditorView * Outcome :=
  let st := applyTransaction (state view) tr in
  let '(view', o) := updateState view st s in
  (view', andThen o (λ s1, Done (emitChangeEvent tr s1))).

(** [addWidget(node, style, pos?)] *)
Definition addWidget (n : Elem) (sty : WidgetStyle) (p : option Z)
    (view : EditorView) (s : World) : EditorView * Outcome :=
  let st := state view in
  dispatchTransaction
    (setMeta (tr st) "widget"
       (PWidget {| pos := default (to (selection st)) p; node := n; style := sty |}))
    view s.

End WysiwygEditor.

(** ** The editor base class: base.ts *)

Module EditorBase.

(** The editor object as far as the methods below use it: its view, its
    element [this.el] and the text of [this.placeholder]. *)
Record t := mk { view : EditorView; el : Elem; placeholderText : string }.

(** [css(n, { [key]: `${v}px` })] for a property whose value is a length
    that must not be negative ([height], [min-height]): the call is made,
    and the element's style takes the value unless the length is negative,
    in which case the declaration is dropped and the style stays as it
    was. *)
Definition cssLength (n : Elem) (key : string) (v : Z) (s : World) : World :=
  if decide (0 ≤ v)%Z
  then css n [(key, px v)] s
  else logCall (Css n [(key, px v)]) s.

(** [setHeight(height)] *)
Definition setHeight (height : Z) (ed : t) (s : World) : World :=
  cssLength (el ed) "height" height s.

(** [setMinHeight(minHeight)] *)
Definition setMinHeight (minHeight : Z) (ed : t) (s : World) : World :=
  cssLength (el ed) "minHeight" minHeight s.

(** [setPlaceholder(text)]: the text is stored, then [state.tr] is
    dispatched through the editor's [dispatchTransaction].  Of
    [scrollIntoView()] only the scroll request is left out: it adds no
    metadata and no document change to the transaction. *)
Definition setPlaceholder (text : string) (ed : t) (s : World) : t * Outcome :=
  let '(view', o) :=
    WysiwygEditor.dispatchTransaction (tr (state (view ed))) (view ed) s in
  ({| view := view'; el := el ed; placeholderText := text |}, o).

End EditorBase.

(** ** Vocabulary of the statements *)

(** The widget a view asks for, if any. *)
Definition requested (view : EditorView) : option Widget :=
  truthy (PopupWidget.getState (state view)).

(** The element a view asks for at a position that resolves. *)
Definition resolved (view : EditorView) : option Elem :=
  w ← requested view; _ ← coordsAtPos view (pos w); Some (node w).

(** The plugin view is updated once per view, whatever the outcome of the
    update before. *)
Definition runUpdates (views : list EditorView) (s : World) : World :=
  foldl (λ s view, world_of (PopupWidget.update view s)) s views.

(** [m] called [k] times in a row. *)
Fixpoint repeatCall (k : nat) (m : World → Outcome) (s : World) : Outcome :=
  match k with
  | O => Done s
  | S k' => andThen (m s) (repeatCall k' m)
  end.

(** The world in which [update] reads [node.clientHeight]: after the
    coordinate lookup, the first [css] and [appendChild]. *)
Definition measuredWorld (w : Widget) (c : Coords.t) (s1 : World) : World :=
  appendChild (node w)
    (css (node w)
       [("position", "absolute"); ("left", px (Coords.left c)); ("opacity", "0")]
       (logCall (CoordsAtPos (pos w)) s1)).


(** The body is a list [kept] of children the manager does not hold,
    followed by the popup if there is one. *)
Definition bodySplit (kept : list Elem) (s : World) : Prop :=
  body s = kept ++ option_list (popup s)
  ∧ ∀ n, popup s = Some n → n ∉ kept.

(** The popup, if set, is a child of the body. *)
Definition popupAttached (s : World) : Prop :=
  ∀ n, popup s = Some n → n ∈ body s.

(** The children left when the popup, if any, is taken out. *)
Definition bodyWithout (p : option Elem) (b : list Elem) : list Elem :=
  match p with
  | Some n => filter (λ x, x ≠ n) b
  | None => b
  end.

(** The top offset [update] computes for a widget, [contentHeight] being
    the measured height. *)
Definition topOffset (w : Widget) (c : Coords.t) (contentHeight : Z) : Z :=
  match style w with
  | StyleBottom => Coords.top c + (Coords.bottom c - Coords.top c)
  | StyleTop => Coords.top c - contentHeight - (Coords.bottom c - Coords.top c)
  end.

(** *** binary64 *)

(** JavaScript numbers are binary64 floating-point numbers: precision 53,
    exponents below 1024, rounding to nearest even. *)
Abbreviation double := SpecFloat.spec_float.

Definition add64 : double → double → double := SpecFloat.SFadd 53 1024.
Definition sub64 : double → double → double := SpecFloat.SFsub 53 1024.

(** The double of a whole number. *)
Definition ofZ64 (z : Z) : double := SpecFloat.binary_normalize 53 1024 z 0 false.

(** The expression of [update] for the top offset,
    [style === 'bottom' ? top + height : top - node.clientHeight - height]
    with [height = bottom - top], in binary64. *)
Definition topOffset64 (sty : WidgetStyle) (top bottom contentHeight : double) : double :=
  let height := sub64 bottom top in
  match sty with
  | StyleBottom => add64 top height
  | StyleTop => sub64 (sub64 top contentHeight) height
  end.

(** The world [update] returns in when, after the teardown has left [s1],
    it shows the widget [w] at the coordinates [c]. *)
Definition shownAt (w : Widget) (c : Coords.t) (s1 : World) : World :=
  focus (set_popup (Some (node w))
    (css (node w)
       [("top", px (topOffset w c (clientHeight (measuredWorld w c s1) (node w))));
        ("opacity", "1")]
       (measuredWorld w c s1))).

(** The four ways an [update] can go. *)
Inductive UpdateCase (view : EditorView) (s : World) : Prop :=
  | TeardownThrows (n : Elem) :
      popup s = Some n → n ∉ body s →
      PopupWidget.removeWidget s = Thrown NotFoundError s →
      PopupWidget.update view s = Thrown NotFoundError s →
      UpdateCase view s
  | NothingRequested (s1 : World) :
      PopupWidget.removeWidget s = Done s1 →
      requested view = None →
      PopupWidget.update view s = Done s1 →
      UpdateCase view s
  | LookupThrows (s1 : World) (w : Widget) :
      PopupWidget.removeWidget s = Done s1 →
      requested view = Some w →
      coordsAtPos view (pos w) = None →
      PopupWidget.update view s = Thrown PositionError (logCall (CoordsAtPos (pos w)) s1) →
      UpdateCase view s
  | WidgetShown (s1 : World) (w : Widget) (c : Coords.t) :
      PopupWidget.removeWidget s = Done s1 →
      requested view = Some w →
      coordsAtPos view (pos w) = Some c →
      PopupWidget.update view s = Done (shownAt w c s1) →
      UpdateCase view s.

(** *** Sample values *)


Definition sampleWorld : World :=
  {| body := [1; 2]; styles := ∅; layout := λ _ _ _, 30%Z;
     blurHook := false; hostFocused := false; popup := None; log := [] |}.

Definition sampleView (v : PluginValue) : EditorView :=
  {| state := {| selection := mkSelection 3 7; widgetField := v |};
     coordsAtPos := λ p, if decide (0 ≤ p)%Z then Some (Coords.mk 100 50 120) else None |}.

Definition widgetA : Widget := {| node := 9; style := StyleBottom; pos := 4 |}.
Definition widgetB : Widget := {| node := 8; style := StyleTop; pos := 5 |}.

(** The world in which widget A is shown. *)
Definition shownWorld : World :=
  world_of (PopupWidget.update (sampleView (PWidget widgetA)) (PopupWidget.new sampleWorld)).

Definition sampleEditor : EditorBase.t :=
  {| EditorBase.view := sampleView (PWidget widgetA); EditorBase.el := 0;
     EditorBase.placeholderText := EmptyString |}.

(** The doubles nearest to 60.1 and to 124.2, as a mantissa of 53 bits and
    an exponent: [0x1.e0ccccccccccdp+5] and [0x1.f0ccccccccccdp+6]. *)
Definition double_60_1 : double :=
  SpecFloat.S754_finite false 0x1e0ccccccccccd (-47).
Definition double_124_2 : double :=
  SpecFloat.S754_finite false 0x1f0ccccccccccd (-46).

(** The double just below the one nearest to 124.2; JavaScript prints it
    as 124.19999999999999. *)
Definition double_below_124_2 : double :=
  SpecFloat.S754_finite false 0x1f0ccccccccccc (-46).

(** A world whose popup was taken out of the body by someone else. *)
Definition detachedWorld : World := set_body [1; 2] shownWorld.

(** * Properties *)

(** ** [removeWidget] *)

Lemma removeWidget_none (s : World) :
  popup s = None → PopupWidget.removeWidget s = Done s.
Proof. intros H. unfold PopupWidget.removeWidget. by rewrite H. Qed.

Lemma removeWidget_attached (s : World) (n : Elem) :
  popup s = Some n → n ∈ body s →
  PopupWidget.removeWidget s
  = Done (set_popup None
            (logCall (RemoveChild n) (set_body (filter (λ x, x ≠ n) (body s)) s))).
Proof.
  intros Hp Hin. unfold PopupWidget.removeWidget, removeChild.
  rewrite Hp. by rewrite decide_True.
Qed.

Lemma removeWidget_detached (s : World) (n : Elem) :
  popup s = Some n → n ∉ body s →
  PopupWidget.removeWidget s = Thrown NotFoundError s.
Proof.
  intros Hp Hin. unfold PopupWidget.removeWidget, removeChild.
  rewrite Hp. by rewrite decide_False.
Qed.

(** Whatever [removeWidget] returns normally has no popup. *)
Lemma removeWidget_clears (s s1 : World) :
  PopupWidget.removeWidget s = Done s1 → popup s1 = None.
Proof.
  unfold PopupWidget.removeWidget, removeChild.
  destruct (popup s) as [n|] eqn:Hp.
  - case_decide; simpl; [|done]. by intros [= <-].
  - by intros [= <-].
Qed.

(** A second call in a row adds nothing, also when the first one throws. *)
Lemma removeWidget_twice (s : World) :
  andThen (PopupWidget.removeWidget s) PopupWidget.removeWidget
  = PopupWidget.removeWidget s.
Proof.
  destruct (PopupWidget.removeWidget s) as [s1|e s1] eqn:Hr; simpl; [|done].
  apply removeWidget_none. by eapply removeWidget_clears.
Qed.

Lemma not_elem_of_filter_ne (n : Elem) (l : list Elem) :
  n ∉ filter (λ x, x ≠ n) l.
Proof. by intros [Hne _]%list_elem_of_filter. Qed.

(** C6: [onFocusLost] is [removeWidget].  With a widget shown (its element
    being a child of the body) the call removes the element and clears
    [popup]; with none shown it returns the world as it was; in both cases
    it returns normally and a second call changes nothing more, so that two
    calls in a row are one. *)
Theorem removeWidget_idempotent (s : World) :
  (∀ n, popup s = Some n → n ∈ body s) →
  ∃ s', PopupWidget.removeWidget s = Done s'
    ∧ popup s' = None
    ∧ (match popup s with
       | Some n =>
           body s' = filter (λ x, x ≠ n) (body s) ∧ (n ∉ body s')
           ∧ log s' = log s ++ [RemoveChild n]
       | None => s' = s
       end)
    ∧ PopupWidget.removeWidget s' = Done s'
    ∧ andThen (PopupWidget.removeWidget s) PopupWidget.removeWidget
      = PopupWidget.removeWidget s.
Proof.
  intros Hwf. destruct (popup s) as [n|] eqn:Hp.
  - rewrite (removeWidget_attached s n) by auto.
    eexists. split; [reflexivity|]. simpl.
    repeat split; auto using not_elem_of_filter_ne.
  - rewrite removeWidget_none by done.
    exists s. simpl. rewrite removeWidget_none by done. done.
Qed.

Lemma removeWidget_idempotent_witness :
  ∃ s', PopupWidget.removeWidget shownWorld = Done s'
    ∧ popup s' = None
    ∧ body s' = [1; 2]
    ∧ PopupWidget.removeWidget s' = Done s'.
Proof.
  destruct (removeWidget_idempotent shownWorld) as (s' & H1 & H2 & H3 & H4 & _).
  - intros n [= <-]. vm_compute. set_solver.
  - exists s'. repeat split; [done..| |done].
    destruct H3 as [-> _]. reflexivity.
Defined.

(** ** [destroy] *)

Lemma destroy_returns (s : World) :
  PopupWidget.destroy s = Done (logCall RemoveBlurListener (set_blurHook false s)).
Proof. reflexivity. Qed.

Lemma repeat_destroy (k : nat) (s : World) :
  ∃ s', repeatCall k PopupWidget.destroy s = Done s'
    ∧ popup s' = popup s ∧ body s' = body s
    ∧ (0 < k → blurHook s' = false).
Proof.
  revert s. induction k as [|k IH]; intros s; simpl.
  - exists s. repeat split; auto. lia.
  - destruct (IH (logCall RemoveBlurListener (set_blurHook false s)))
      as (s' & Hrun & Hp & Hb & Hh).
    exists s'. repeat split; auto.
    destruct k; [by injection Hrun as <-|]. intros _. apply Hh. lia.
Qed.

(** C7: [teardown] is [destroy].  Called any number of times in a row, from
    any world (a widget shown or not, the listener registered or not), it
    returns normally every time; so does a call that follows
    [removeWidget]. *)
Theorem destroy_never_fails (k : nat) (s : World) :
  (∃ s', repeatCall k PopupWidget.destroy s = Done s')
  ∧ (∃ s', andThen (PopupWidget.destroy s) PopupWidget.destroy = Done s')
  ∧ (∃ s', PopupWidget.destroy (world_of (PopupWidget.removeWidget s)) = Done s').
Proof.
  split; [|split].
  - destruct (repeat_destroy k s) as (s' & Hrun & _). by exists s'.
  - simpl. by eexists.
  - by eexists.
Qed.

(** C1, on the code: [destroy] unregisters the listener and does nothing
    else.  With widget A shown (element 9 under the body), [destroy]
    returns with [popup] still set and element 9 still a child of the body,
    and a later ['blur'] no longer removes it. *)
Theorem destroy_leaves_widget_attached :
  popup shownWorld = Some 9 ∧ body shownWorld = [1; 2; 9]
  ∧ ∃ s', PopupWidget.destroy shownWorld = Done s'
      ∧ blurHook s' = false
      ∧ popup s' = Some 9
      ∧ body s' = [1; 2; 9]
      ∧ body (world_of (blurEvent s')) = [1; 2; 9].
Proof.
  split; [reflexivity|]. split; [reflexivity|].
  eexists. split; [reflexivity|]. repeat split; reflexivity.
Qed.

(** What [destroy] does in general: only the listener goes. *)
Lemma destroy_only_unhooks (s : World) :
  ∃ s', PopupWidget.destroy s = Done s'
    ∧ blurHook s' = false ∧ popup s' = popup s ∧ body s' = body s
    ∧ styles s' = styles s ∧ hostFocused s' = hostFocused s
    ∧ log s' = log s ++ [RemoveBlurListener].
Proof. eexists. split; [reflexivity|]. by repeat split. Qed.

(** ** [update] *)

Lemma andThen_Done (o : Outcome) : andThen o Done = o.
Proof. by destruct o. Qed.

(** No widget requested: [update] is [removeWidget]. *)
Lemma update_none (view : EditorView) (s : World) :
  requested view = None →
  PopupWidget.update view s = PopupWidget.removeWidget s.
Proof.
  intros Hreq. unfold PopupWidget.update.
  change (truthy (PopupWidget.getState (state view))) with (requested view).
  rewrite Hreq. apply andThen_Done.
Qed.

(** A widget requested at a position that resolves. *)
Lemma update_materializes (view : EditorView) (s s1 : World) (w : Widget) (c : Coords.t) :
  requested view = Some w →
  coordsAtPos view (pos w) = Some c →
  PopupWidget.removeWidget s = Done s1 →
  PopupWidget.update view s
  = Done (focus (set_popup (Some (node w))
       (css (node w)
          [("top", px (match style w with
                       | StyleBottom =>
                           Coords.top c + (Coords.bottom c - Coords.top c)
                       | StyleTop =>
                           Coords.top c - clientHeight (measuredWorld w c s1) (node w)
                           - (Coords.bottom c - Coords.top c)
                       end)%Z);
           ("opacity", "1")]
          (measuredWorld w c s1)))).
Proof.
  intros Hreq Hc Hrm. unfold PopupWidget.update.
  change (truthy (PopupWidget.getState (state view))) with (requested view).
  rewrite Hreq, Hrm. simpl. by rewrite Hc.
Qed.

(** A widget requested at a position that does not resolve: the lookup
    throws after the old widget is gone. *)
Lemma update_unresolved (view : EditorView) (s s1 : World) (w : Widget) :
  requested view = Some w →
  coordsAtPos view (pos w) = None →
  PopupWidget.removeWidget s = Done s1 →
  PopupWidget.update view s = Thrown PositionError (logCall (CoordsAtPos (pos w)) s1).
Proof.
  intros Hreq Hc Hrm. unfold PopupWidget.update.
  change (truthy (PopupWidget.getState (state view))) with (requested view).
  rewrite Hreq, Hrm. simpl. by rewrite Hc.
Qed.

(** When [removeWidget] throws, so does [update], in the same world. *)
Lemma update_teardown_throws (view : EditorView) (s s1 : World) (e : Exn) :
  PopupWidget.removeWidget s = Thrown e s1 →
  PopupWidget.update view s = Thrown e s1.
Proof. intros Hrm. unfold PopupWidget.update. by rewrite Hrm. Qed.

(** Reading back a property that the last [css] call has set. *)
Lemma styleOf_css_first (n : Elem) (k v k2 v2 : string) (s : World) :
  k ≠ k2 →
  styleOf (css n [(k, v); (k2, v2)] s) n k = v.
Proof.
  intros Hne. unfold styleOf, css. simpl.
  rewrite lookup_insert_eq. simpl.
  rewrite lookup_insert_ne by done. by rewrite lookup_insert_eq.
Qed.

Lemma styleOf_focus_popup (p : option Elem) (s : World) (n : Elem) (k : string) :
  styleOf (focus (set_popup p s)) n k = styleOf s n k.
Proof. reflexivity. Qed.

(** The world in which the height is measured: the element is the last
    child of the body, invisible and absolutely positioned. *)
Lemma measuredWorld_attached (w : Widget) (c : Coords.t) (s1 : World) :
  last (body (measuredWorld w c s1)) = Some (node w)
  ∧ styleOf (measuredWorld w c s1) (node w) "opacity" = "0"
  ∧ styleOf (measuredWorld w c s1) (node w) "position" = "absolute"
  ∧ styleOf (measuredWorld w c s1) (node w) "left" = px (Coords.left c).
Proof.
  unfold measuredWorld, appendChild, css, styleOf. simpl.
  rewrite last_snoc, lookup_insert_eq. simpl. repeat split.
  - by rewrite lookup_insert_eq.
  - by rewrite !lookup_insert_ne, lookup_insert_eq by done.
  - by rewrite lookup_insert_ne, lookup_insert_eq by done.
Qed.

(** C3: a widget requested with the style "above" (['top']), at a position
    that resolves to [c], the old widget (if any) being removable.  Then
    [update] returns, and the [top] it leaves on the element is
    [top - contentHeight - (bottom - top)] pixels, [contentHeight] being
    the [clientHeight] of the element once attached; with [top = 100],
    [bottom = 120] and [contentHeight = 30] that is [50px]. *)
Theorem update_places_above (view : EditorView) (s s1 : World)
    (w : Widget) (c : Coords.t) (contentHeight : Z) :
  requested view = Some w →
  style w = StyleTop →
  coordsAtPos view (pos w) = Some c →
  PopupWidget.removeWidget s = Done s1 →
  clientHeight (measuredWorld w c s1) (node w) = contentHeight →
  ∃ s', PopupWidget.update view s = Done s'
    ∧ styleOf s' (node w) "top"
      = px (Coords.top c - contentHeight - (Coords.bottom c - Coords.top c))
    ∧ (Coords.top c = 100%Z → Coords.bottom c = 120%Z → contentHeight = 30%Z →
       styleOf s' (node w) "top" = "50px").
Proof.
  intros Hreq Hsty Hc Hrm Hh.
  rewrite (update_materializes view s s1 w c) by done.
  eexists. split; [reflexivity|].
  rewrite styleOf_focus_popup, styleOf_css_first by done.
  rewrite Hsty, Hh. split; [done|].
  by intros -> -> ->.
Qed.

Lemma update_places_above_witness :
  ∃ s', PopupWidget.update (sampleView (PWidget widgetB)) shownWorld = Done s'
    ∧ styleOf s' 8 "top" = "50px".
Proof.
  destruct (update_places_above (sampleView (PWidget widgetB)) shownWorld
              (world_of (PopupWidget.removeWidget shownWorld)) widgetB
              (Coords.mk 100 50 120) 30)
    as (s' & Hup & _ & Htop); try reflexivity.
  exists s'. split; [exact Hup|]. by apply Htop.
Defined.

(** In binary64, 60.1 + (124.2 - 60.1) is the double below 124.2. *)
Lemma below_offset64_fractional :
  topOffset64 StyleBottom double_60_1 double_124_2 (ofZ64 30) = double_below_124_2.
Proof. reflexivity. Qed.




(** What a successful [update] with a request leaves behind. *)
Lemma update_shows (view : EditorView) (s s' : World) (w : Widget) :
  requested view = Some w →
  PopupWidget.update view s = Done s' →
  popup s' = Some (node w)
  ∧ last (body s') = Some (node w)
  ∧ hostFocused s' = true
  ∧ last (log s') = Some Focus.
Proof.
  intros Hreq Hup.
  destruct (PopupWidget.removeWidget s) as [s1|e s1] eqn:Hrm.
  - destruct (coordsAtPos view (pos w)) as [c|] eqn:Hc.
    + rewrite (update_materializes view s s1 w c) in Hup by done.
      injection Hup as <-. simpl.
      by rewrite !last_snoc.
    + by rewrite (update_unresolved view s s1 w) in Hup.
  - by rewrite (update_teardown_throws view s s1 e) in Hup.
Qed.

(** C5: [update] with no widget requested, in the world a successful
    [update] with a request has left: it returns, the element of that
    request is no longer a child of the body, [popup] is [null], and the
    only call made is the [removeChild]: no lookup, no style, no
    [appendChild], no focus. *)
Theorem update_none_clears (view view0 : EditorView) (s s1 : World) (w : Widget) :
  requested view = Some w →
  PopupWidget.update view s = Done s1 →
  requested view0 = None →
  ∃ s2, PopupWidget.update view0 s1 = Done s2
    ∧ popup s2 = None
    ∧ (node w ∉ body s2)
    ∧ body s2 = filter (λ x, x ≠ node w) (body s1)
    ∧ styles s2 = styles s1
    ∧ hostFocused s2 = hostFocused s1
    ∧ log s2 = log s1 ++ [RemoveChild (node w)].
Proof.
  intros Hreq Hup Hnone.
  destruct (update_shows view s s1 w Hreq Hup) as (Hp & Hlast & _).
  assert (node w ∈ body s1) as Hin.
  { apply last_Some in Hlast as [l ->]. apply elem_of_app. right. by left. }
  rewrite update_none, (removeWidget_attached s1 (node w)) by done.
  eexists. split; [reflexivity|]. simpl.
  repeat split; auto using not_elem_of_filter_ne.
Qed.

Lemma update_none_clears_witness :
  ∃ s2, PopupWidget.update (sampleView PUndefined) shownWorld = Done s2
    ∧ popup s2 = None ∧ body s2 = [1; 2].
Proof.
  destruct (update_none_clears (sampleView (PWidget widgetA)) (sampleView PUndefined)
              (PopupWidget.new sampleWorld) shownWorld widgetA)
    as (s2 & Hup & Hp & _ & Hb & _); try reflexivity.
  exists s2. split; [exact Hup|]. split; [exact Hp|]. rewrite Hb. reflexivity.
Defined.

(** The calls of [removeWidget]: at most the one [removeChild]. *)
Lemma removeWidget_effects (s : World) :
  hostFocused (world_of (PopupWidget.removeWidget s)) = hostFocused s
  ∧ ∃ calls, log (world_of (PopupWidget.removeWidget s)) = log s ++ calls
      ∧ Focus ∉ calls.
Proof.
  unfold PopupWidget.removeWidget, removeChild.
  destruct (popup s) as [n|]; simpl.
  - case_decide; simpl.
    + split; [done|]. exists [RemoveChild n]. split; [done|].
      by intros ?%list_elem_of_singleton.
    + split; [done|]. exists []. rewrite app_nil_r. split; [done|].
      apply not_elem_of_nil.
  - split; [done|]. exists []. rewrite app_nil_r. split; [done|].
    apply not_elem_of_nil.
Qed.

(** C8: when [update] materializes a widget, its last call is
    [view.focus()] and the editing surface holds the focus afterwards;
    when no widget is requested, [update] makes no [focus] call and the
    focus is where it was. *)
Theorem update_focus (view : EditorView) (s : World) :
  (∀ w s', requested view = Some w → PopupWidget.update view s = Done s' →
     last (log s') = Some Focus ∧ hostFocused s' = true)
  ∧ (requested view = None →
     hostFocused (world_of (PopupWidget.update view s)) = hostFocused s
     ∧ ∃ calls, log (world_of (PopupWidget.update view s)) = log s ++ calls
         ∧ Focus ∉ calls).
Proof.
  split.
  - intros w s' Hreq Hup.
    by destruct (update_shows view s s' w Hreq Hup) as (_ & _ & ? & ?).
  - intros Hnone. rewrite update_none by done. apply removeWidget_effects.
Qed.

Lemma update_focus_witness :
  hostFocused sampleWorld = false
  ∧ hostFocused shownWorld = true
  ∧ last (log shownWorld) = Some Focus
  ∧ hostFocused (world_of (PopupWidget.update (sampleView PNull) sampleWorld)) = false.
Proof.
  split; [reflexivity|].
  destruct (update_focus (sampleView (PWidget widgetA)) (PopupWidget.new sampleWorld))
    as [Hshow _].
  destruct (Hshow widgetA shownWorld) as [Hlast Hfoc]; try reflexivity.
  destruct (update_focus (sampleView PNull) sampleWorld) as [_ Hnone].
  destruct Hnone as [Hsame _]; [reflexivity|].
  split; [exact Hfoc|]. split; [exact Hlast|]. exact Hsame.
Defined.

(** ** The plugin state and [addWidget] *)

Lemma getMeta_absent (t : Transaction) (key : string) :
  meta t !! key = None → getMeta t key = PUndefined.
Proof. intros H. unfold getMeta. by rewrite H. Qed.

Lemma getMeta_setMeta (t : Transaction) (key : string) (v : PluginValue) :
  getMeta (setMeta t key v) key = v.
Proof. unfold getMeta, setMeta. simpl. by rewrite lookup_insert_eq. Qed.

(** Dispatching a transaction without ['widget'] metadata runs
    [removeWidget] and then reports the change. *)
Lemma dispatch_unrelated (t : Transaction) (view : EditorView) (s : World) :
  meta t !! "widget" = None →
  WysiwygEditor.dispatchTransaction t view s
  = ({| state := applyTransaction (state view) t; coordsAtPos := coordsAtPos view |},
     andThen (PopupWidget.removeWidget s)
       (λ s1, Done (WysiwygEditor.emitChangeEvent t s1))).
Proof.
  intros Hmeta.
  unfold WysiwygEditor.dispatchTransaction, WysiwygEditor.updateState.
  rewrite update_none; [done|].
  unfold requested, applyTransaction, Plugin.apply. simpl.
  by rewrite getMeta_absent.
Qed.

(** C9: the plugin field is [null] at initialization; after any
    transaction it is that transaction's ['widget'] metadata, whatever it
    was before; a transaction without that metadata (a fresh [state.tr]
    for one) leaves no request, also right after a transaction that
    carried one; and dispatching such a transaction while a widget is
    shown removes the widget. *)
Theorem plugin_state_follows_meta (st : EditorState) (t : Transaction) :
  Plugin.init = PNull
  ∧ (∀ sel, PopupWidget.getState (createState sel) = PNull)
  ∧ PopupWidget.getState (applyTransaction st t) = getMeta t "widget"
  ∧ (∀ w, PopupWidget.getState (applyTransaction st (setMeta t "widget" (PWidget w)))
          = PWidget w)
  ∧ (meta t !! "widget" = None →
     truthy (PopupWidget.getState (applyTransaction st t)) = None
     ∧ (∀ w, truthy (PopupWidget.getState
               (applyTransaction
                  (applyTransaction st (setMeta t "widget" (PWidget w))) t)) = None)
     ∧ ∀ (view : EditorView) (s : World) (n : Elem),
         popup s = Some n → n ∈ body s →
         ∃ view' s', WysiwygEditor.dispatchTransaction t view s = (view', Done s')
           ∧ popup s' = None ∧ n ∉ body s')
  ∧ truthy (PopupWidget.getState (applyTransaction st (tr st))) = None.
Proof.
  split; [done|]. split; [done|]. split; [done|].
  split; [intros w; apply getMeta_setMeta|].
  split; [|done].
  intros Hmeta.
  assert (truthy (PopupWidget.getState (applyTransaction st t)) = None) as Hnone.
  { unfold applyTransaction, Plugin.apply. simpl. by rewrite getMeta_absent. }
  split; [done|]. split; [done|].
  intros view s n Hp Hin.
  rewrite dispatch_unrelated, (removeWidget_attached s n) by done.
  eexists _, _. split; [reflexivity|].
  unfold WysiwygEditor.emitChangeEvent.
  destruct (docChanged t); simpl; split; auto using not_elem_of_filter_ne.
Qed.

Lemma plugin_state_follows_meta_witness :
  ∃ view' s',
    WysiwygEditor.dispatchTransaction (tr (state (sampleView (PWidget widgetA))))
      (sampleView (PWidget widgetA)) shownWorld = (view', Done s')
    ∧ PopupWidget.getState (state view') = PUndefined
    ∧ popup s' = None ∧ 9 ∉ body s'.
Proof.
  destruct (plugin_state_follows_meta (state (sampleView (PWidget widgetA)))
              (tr (state (sampleView (PWidget widgetA)))))
    as (_ & _ & _ & _ & Hclear & _).
  destruct Hclear as (_ & _ & Hdisp); [reflexivity|].
  destruct (Hdisp (sampleView (PWidget widgetA)) shownWorld 9)
    as (view' & s' & Heq & Hp & Hb); [reflexivity|vm_compute; set_solver|].
  exists view', s'. split; [exact Heq|].
  split; [|by split].
  by injection Heq as <- _.
Defined.

(** C10: the request [addWidget(node, style, pos)] leaves in the plugin
    field carries [node] and [style], and as its anchor [pos] when given,
    [state.selection.to] of the state at the call when omitted. *)
Theorem addWidget_anchor (n : Elem) (sty : WidgetStyle) (view : EditorView) (s : World) :
  (∀ p, PopupWidget.getState (state (WysiwygEditor.addWidget n sty (Some p) view s).1)
        = PWidget {| node := n; style := sty; pos := p |})
  ∧ PopupWidget.getState (state (WysiwygEditor.addWidget n sty None view s).1)
    = PWidget {| node := n; style := sty; pos := to (selection (state view)) |}.
Proof.
  split; [intros p|];
    unfold WysiwygEditor.addWidget, WysiwygEditor.dispatchTransaction,
      WysiwygEditor.updateState; simpl;
    unfold PopupWidget.getState, Plugin.apply; simpl;
    apply getMeta_setMeta.
Qed.

(** ** Sequences of updates *)

Lemma filter_all (P : Elem → Prop) `{!∀ x, Decision (P x)} (l : list Elem) :
  (∀ x, x ∈ l → P x) → filter P l = l.
Proof.
  induction l as [|a l IH]; intros Hall; [done|].
  rewrite filter_cons_True by (apply Hall; by left).
  f_equal. apply IH. intros x Hx. apply Hall. by right.
Qed.

(** Under [bodySplit] the teardown succeeds and leaves exactly [kept]. *)
Lemma removeWidget_split (kept : list Elem) (s : World) :
  bodySplit kept s →
  ∃ s1, PopupWidget.removeWidget s = Done s1
    ∧ popup s1 = None ∧ body s1 = kept
    ∧ log s1 = log s ++ (RemoveChild <$> option_list (popup s)).
Proof.
  intros [Hbody Hfresh]. destruct (popup s) as [n|] eqn:Hp; simpl in *.
  - rewrite (removeWidget_attached s n)
      by (try done; rewrite Hbody; apply elem_of_app; right; by left).
    eexists. split; [reflexivity|]. simpl. split; [done|]. split; [|done].
    rewrite Hbody, filter_app, filter_cons_False, filter_nil, app_nil_r
      by (intros Hne; by apply Hne).
    apply filter_all. intros x Hx ->. by apply (Hfresh n).
  - rewrite removeWidget_none by done. exists s.
    by rewrite Hbody, !app_nil_r.
Qed.

(** The calls of an [update] come after those of its teardown. *)
Lemma update_log_extends (view : EditorView) (s s1 : World) :
  PopupWidget.removeWidget s = Done s1 →
  ∃ calls, log (world_of (PopupWidget.update view s)) = log s1 ++ calls.
Proof.
  intros Hrm. destruct (requested view) as [w|] eqn:Hreq.
  - destruct (coordsAtPos view (pos w)) as [c|] eqn:Hc.
    + rewrite (update_materializes view s s1 w c) by done. simpl.
      rewrite <- !app_assoc. by eexists.
    + rewrite (update_unresolved view s s1 w) by done. simpl. by eexists.
  - rewrite update_none, Hrm by done. exists []. by rewrite app_nil_r.
Qed.

(** One update: the popup becomes the element requested at a resolving
    position, if any; that element leaves the place it had among the kept
    children and comes last. *)
Lemma update_split (view : EditorView) (kept : list Elem) (s : World) :
  bodySplit kept s →
  popup (world_of (PopupWidget.update view s)) = resolved view
  ∧ bodySplit (filter (λ x, resolved view ≠ Some x) kept)
      (world_of (PopupWidget.update view s)).
Proof.
  intros Hsplit.
  destruct (removeWidget_split kept s Hsplit) as (s1 & Hrm & Hp1 & Hb1 & _).
  assert (∀ x, x ∈ kept → None ≠ Some x) as Hnone by done.
  unfold bodySplit, resolved. destruct (requested view) as [w|] eqn:Hreq; simpl.
  - destruct (coordsAtPos view (pos w)) as [c|] eqn:Hc; simpl.
    + rewrite (update_materializes view s s1 w c) by done. simpl.
      split; [done|]. split.
      * rewrite Hb1. f_equal. apply list_filter_iff. intros x. naive_solver.
      * intros n [= <-] [Hne _]%list_elem_of_filter. by apply Hne.
    + rewrite (update_unresolved view s s1 w) by done. simpl.
      rewrite Hp1, Hb1, app_nil_r, filter_all by done. done.
  - rewrite update_none, Hrm by done. simpl.
    rewrite Hp1, Hb1, app_nil_r, filter_all by done. done.
Qed.

Lemma runUpdates_snoc (views : list EditorView) (view : EditorView) (s : World) :
  runUpdates (views ++ [view]) s
  = world_of (PopupWidget.update view (runUpdates views s)).
Proof. unfold runUpdates. by rewrite foldl_snoc. Qed.

(** After any sequence of updates from a world without popup, the body is
    what is left of the initial children, in their order, once every
    element the manager has shown is taken out, followed by the popup. *)
Lemma runUpdates_split (views : list EditorView) (s0 : World) :
  popup s0 = None →
  popup (runUpdates views s0) = last views ≫= resolved
  ∧ bodySplit (filter (λ x, x ∉ omap resolved views) (body s0))
      (runUpdates views s0).
Proof.
  intros Hp0. induction views as [|view views [IHp IHb]] using rev_ind.
  - simpl. split; [done|]. split.
    + rewrite Hp0, app_nil_r. simpl. symmetry. apply filter_all.
      intros x _. apply not_elem_of_nil.
    + intros n. by rewrite Hp0.
  - rewrite runUpdates_snoc, last_snoc. simpl.
    destruct (update_split view _ _ IHb) as [Hp Hb].
    split; [done|].
    rewrite list_filter_filter in Hb.
    erewrite list_filter_iff; [exact Hb|].
    intros x. rewrite omap_app, not_elem_of_app. simpl.
    destruct (resolved view) as [y|]; simpl.
    + rewrite not_elem_of_cons. split.
      * intros (Hviews & Hne & _). split; [|done]. intros [= ->]. by apply Hne.
      * intros [Hne Hviews]. split; [done|].
        split; [|apply not_elem_of_nil]. intros ->. by apply Hne.
    + split.
      * by intros [Hviews _].
      * intros [_ Hviews]. split; [done|]. apply not_elem_of_nil.
Qed.

(** C2: after any sequence of [update] calls on a manager that starts
    without popup, [popup] is the element of the last request when that
    request is a widget at a resolving position, and [null] otherwise; the
    body holds the initial children the manager never showed, followed by
    that popup and nothing else; so an attached element that the manager
    ever inserted is the popup.  The children stay distinct.  And whatever
    the next request is, when a popup is set the first call of the next
    [update] is the [removeChild] of it. *)
Theorem single_widget (views : list EditorView) (s0 : World) :
  popup s0 = None →
  popup (runUpdates views s0) = last views ≫= resolved
  ∧ body (runUpdates views s0)
    = filter (λ x, x ∉ omap resolved views) (body s0)
      ++ option_list (popup (runUpdates views s0))
  ∧ (∀ x, x ∈ body (runUpdates views s0) → x ∈ omap resolved views →
       popup (runUpdates views s0) = Some x)
  ∧ (NoDup (body s0) → NoDup (body (runUpdates views s0)))
  ∧ (∀ view n, popup (runUpdates views s0) = Some n →
       ∃ calls, log (runUpdates (views ++ [view]) s0)
                = log (runUpdates views s0) ++ RemoveChild n :: calls).
Proof.
  intros Hp0.
  destruct (runUpdates_split views s0 Hp0) as [Hp [Hb Hfresh]].
  split; [done|]. split; [done|]. split; [|split].
  - intros x Hx Hshown. rewrite Hb in Hx.
    apply elem_of_app in Hx as [[Hnot _]%list_elem_of_filter|Hx]; [done|].
    destruct (popup (runUpdates views s0)); simpl in Hx.
    + by apply list_elem_of_singleton in Hx as ->.
    + by apply elem_of_nil in Hx.
  - intros Hnd. rewrite Hb. apply NoDup_app.
    split; [by apply NoDup_filter|]. split.
    + intros x Hx Hpop. destruct (popup (runUpdates views s0)) as [n|] eqn:Hn.
      * apply list_elem_of_singleton in Hpop as ->. by apply (Hfresh n).
      * by apply elem_of_nil in Hpop.
    + destruct (popup (runUpdates views s0)); simpl;
        [apply NoDup_singleton|apply NoDup_nil_2].
  - intros view n Hn. rewrite runUpdates_snoc.
    destruct (removeWidget_split _ _ (conj Hb Hfresh)) as (s1 & Hrm & _ & _ & Hlog).
    destruct (update_log_extends view _ _ Hrm) as [calls Hcalls].
    exists calls. rewrite Hcalls, Hlog, Hn. simpl. by rewrite <- app_assoc.
Qed.

Lemma single_widget_witness :
  body (runUpdates [sampleView (PWidget widgetA); sampleView (PWidget widgetB)]
          (PopupWidget.new sampleWorld)) = [1; 2; 8]
  ∧ popup (runUpdates [sampleView (PWidget widgetA); sampleView (PWidget widgetB)]
             (PopupWidget.new sampleWorld)) = Some 8.
Proof.
  destruct (single_widget [sampleView (PWidget widgetA); sampleView (PWidget widgetB)]
              (PopupWidget.new sampleWorld)) as (Hp & Hb & _); [reflexivity|].
  split; [|exact Hp]. rewrite Hb, Hp. reflexivity.
Defined.

(** * Further properties of the code *)

(** ** The cases of [update] *)

Lemma removeWidget_throws_unchanged (s s1 : World) (e : Exn) :
  PopupWidget.removeWidget s = Thrown e s1 →
  e = NotFoundError ∧ s1 = s ∧ ∃ n, popup s = Some n ∧ n ∉ body s.
Proof.
  unfold PopupWidget.removeWidget, removeChild.
  destruct (popup s) as [n|]; [|done].
  case_decide; simpl; [done|]. intros [= <- <-]. eauto.
Qed.

(** What the teardown changes: the body and the popup, nothing else. *)
Lemma removeWidget_changes (s s1 : World) :
  PopupWidget.removeWidget s = Done s1 →
  popup s1 = None
  ∧ body s1 = bodyWithout (popup s) (body s)
  ∧ styles s1 = styles s ∧ layout s1 = layout s
  ∧ blurHook s1 = blurHook s ∧ hostFocused s1 = hostFocused s
  ∧ log s1 = log s ++ (RemoveChild <$> option_list (popup s)).
Proof.
  unfold PopupWidget.removeWidget, removeChild.
  destruct (popup s) as [n|] eqn:Hp.
  - case_decide; simpl; [|done]. by intros [= <-].
  - intros [= <-]. simpl. by rewrite Hp, app_nil_r.
Qed.

Lemma removeWidget_when_attached (s : World) :
  popupAttached s → ∃ s1, PopupWidget.removeWidget s = Done s1.
Proof.
  intros Hatt. destruct (popup s) as [n|] eqn:Hp.
  - rewrite (removeWidget_attached s n) by auto. by eexists.
  - rewrite removeWidget_none by done. by eexists.
Qed.

Lemma update_shownAt (view : EditorView) (s s1 : World) (w : Widget) (c : Coords.t) :
  requested view = Some w →
  coordsAtPos view (pos w) = Some c →
  PopupWidget.removeWidget s = Done s1 →
  PopupWidget.update view s = Done (shownAt w c s1).
Proof. apply update_materializes. Qed.

Lemma update_cases (view : EditorView) (s : World) : UpdateCase view s.
Proof.
  destruct (PopupWidget.removeWidget s) as [s1|e s1] eqn:Hrm.
  - destruct (requested view) as [w|] eqn:Hreq.
    + destruct (coordsAtPos view (pos w)) as [c|] eqn:Hc.
      * eapply WidgetShown; eauto using update_shownAt.
      * eapply LookupThrows; eauto using update_unresolved.
    + eapply NothingRequested; eauto. by rewrite update_none.
  - destruct (removeWidget_throws_unchanged s s1 e Hrm) as (-> & -> & n & Hp & Hn).
    eapply TeardownThrows; eauto using update_teardown_throws.
Qed.

(** The world with the widget shown, field by field. *)
Lemma shownAt_fields (w : Widget) (c : Coords.t) (s1 : World) :
  popup (shownAt w c s1) = Some (node w)
  ∧ body (shownAt w c s1) = filter (λ x, x ≠ node w) (body s1) ++ [node w]
  ∧ layout (shownAt w c s1) = layout s1
  ∧ blurHook (shownAt w c s1) = blurHook s1
  ∧ hostFocused (shownAt w c s1) = true
  ∧ log (shownAt w c s1)
    = log s1 ++
      [CoordsAtPos (pos w);
       Css (node w)
         [("position", "absolute"); ("left", px (Coords.left c)); ("opacity", "0")];
       AppendChild (node w);
       Css (node w)
         [("top", px (topOffset w c (clientHeight (measuredWorld w c s1) (node w))));
          ("opacity", "1")];
       Focus].
Proof.
  repeat split. simpl. by rewrite <- !app_assoc.
Qed.

Lemma shownAt_other_styles (w : Widget) (c : Coords.t) (s1 : World) (n : Elem) :
  n ≠ node w → styles (shownAt w c s1) !! n = styles s1 !! n.
Proof.
  intros Hne. unfold shownAt, measuredWorld, css. simpl.
  by rewrite !lookup_insert_ne.
Qed.

Lemma styleOf_css_other (n m : Elem) (props : list (string * string))
    (s : World) (k : string) :
  m ≠ n → styleOf (css n props s) m k = styleOf s m k.
Proof. intros Hne. unfold styleOf, css. simpl. by rewrite lookup_insert_ne. Qed.

Lemma styleOf_css1 (n : Elem) (k1 v1 : string) (s : World) (k : string) :
  styleOf (css n [(k1, v1)] s) n k
  = if decide (k = k1) then v1 else styleOf s n k.
Proof.
  unfold styleOf, css. simpl. rewrite lookup_insert_eq. simpl.
  rewrite lookup_insert. repeat case_decide; simplify_eq; done.
Qed.

Lemma styleOf_css2 (n : Elem) (k1 v1 k2 v2 : string) (s : World) (k : string) :
  styleOf (css n [(k1, v1); (k2, v2)] s) n k
  = if decide (k = k2) then v2
    else if decide (k = k1) then v1
    else styleOf s n k.
Proof.
  unfold styleOf, css. simpl. rewrite lookup_insert_eq. simpl.
  rewrite !lookup_insert. repeat case_decide; simplify_eq; done.
Qed.

Lemma styleOf_css3 (n : Elem) (k1 v1 k2 v2 k3 v3 : string) (s : World) (k : string) :
  styleOf (css n [(k1, v1); (k2, v2); (k3, v3)] s) n k
  = if decide (k = k3) then v3
    else if decide (k = k2) then v2
    else if decide (k = k1) then v1
    else styleOf s n k.
Proof.
  unfold styleOf, css. simpl. rewrite lookup_insert_eq. simpl.
  rewrite !lookup_insert. repeat case_decide; simplify_eq; done.
Qed.

(** The inline style of the shown element: the four properties set, every
    other property as before. *)
Lemma shownAt_style (w : Widget) (c : Coords.t) (s1 : World) (k : string) :
  styleOf (shownAt w c s1) (node w) k
  = if decide (k = "opacity") then "1"
    else if decide (k = "top")
      then px (topOffset w c (clientHeight (measuredWorld w c s1) (node w)))
    else if decide (k = "left") then px (Coords.left c)
    else if decide (k = "position") then "absolute"
    else styleOf s1 (node w) k.
Proof.
  unfold shownAt. rewrite styleOf_focus_popup, styleOf_css2.
  change (styleOf (measuredWorld w c s1) (node w) k)
    with (styleOf (css (node w)
            [("position", "absolute"); ("left", px (Coords.left c)); ("opacity", "0")]
            s1) (node w) k).
  rewrite styleOf_css3.
  repeat case_decide; simplify_eq; done.
Qed.

(** ** Error and edge behaviour of [update] *)

(** X1: a widget requested at a position the lookup rejects, the popup (if
    any) being attached.  [update] throws the lookup's error, and by then
    the old widget is gone: [popup] is [null], the body has lost the old
    popup and gained nothing, no style and no focus has been touched. *)
Theorem update_unresolved_effects (view : EditorView) (s : World) (w : Widget) :
  requested view = Some w →
  coordsAtPos view (pos w) = None →
  popupAttached s →
  ∃ s', PopupWidget.update view s = Thrown PositionError s'
    ∧ popup s' = None
    ∧ body s' = bodyWithout (popup s) (body s)
    ∧ styles s' = styles s
    ∧ hostFocused s' = hostFocused s
    ∧ log s' = log s ++ (RemoveChild <$> option_list (popup s))
               ++ [CoordsAtPos (pos w)].
Proof.
  intros Hreq Hc Hatt.
  destruct (removeWidget_when_attached s Hatt) as [s1 Hrm].
  destruct (removeWidget_changes s s1 Hrm) as (Hp & Hb & Hst & _ & _ & Hf & Hlog).
  rewrite (update_unresolved view s s1 w) by done.
  eexists. split; [reflexivity|]. simpl.
  rewrite Hlog, <- app_assoc. done.
Qed.

Lemma update_unresolved_effects_witness :
  ∃ s', PopupWidget.update
          (sampleView (PWidget {| node := 8; style := StyleTop; pos := -4 |}))
          shownWorld = Thrown PositionError s'
    ∧ popup s' = None ∧ body s' = [1; 2].
Proof.
  destruct (update_unresolved_effects
              (sampleView (PWidget {| node := 8; style := StyleTop; pos := -4 |}))
              shownWorld {| node := 8; style := StyleTop; pos := -4 |})
    as (s' & Hup & Hp & Hb & _); try reflexivity.
  - intros n [= <-]. vm_compute. set_solver.
  - exists s'. split; [exact Hup|]. split; [exact Hp|]. rewrite Hb. reflexivity.
Defined.

(** X2: when the popup has been taken out of the body by someone else,
    [removeWidget] throws and leaves [popup] set, so every [update] throws
    in the same way, whatever is requested, and no sequence of updates
    changes anything: the manager does not recover. *)
Theorem detached_popup_stuck (s : World) (n : Elem) (views : list EditorView) :
  popup s = Some n →
  n ∉ body s →
  PopupWidget.removeWidget s = Thrown NotFoundError s
  ∧ (∀ view, PopupWidget.update view s = Thrown NotFoundError s)
  ∧ runUpdates views s = s.
Proof.
  intros Hp Hn.
  pose proof (removeWidget_detached s n Hp Hn) as Hrm.
  assert (∀ view, PopupWidget.update view s = Thrown NotFoundError s) as Hup.
  { intros view. by apply update_teardown_throws. }
  split; [done|]. split; [done|].
  induction views as [|view views IH] using rev_ind; [done|].
  by rewrite runUpdates_snoc, IH, Hup.
Qed.

Lemma detached_popup_stuck_witness :
  PopupWidget.update (sampleView PNull) detachedWorld
  = Thrown NotFoundError detachedWorld
  ∧ runUpdates [sampleView PNull; sampleView (PWidget widgetB)] detachedWorld
    = detachedWorld.
Proof.
  destruct (detached_popup_stuck detachedWorld 9
              [sampleView PNull; sampleView (PWidget widgetB)])
    as (_ & Hup & Hrun); [reflexivity| |].
  { change (9 ∉ [1; 2]). rewrite !not_elem_of_cons.
    repeat split; [done..|apply not_elem_of_nil]. }
  split; [apply Hup|exact Hrun].
Defined.

(** X3: after an [update] that shows a widget the element is revealed in
    place: [position] is [absolute], [left] is the anchor's left in pixels,
    [opacity] is [1]; every other inline property of the element except
    [top] is what it was before the call. *)
Theorem update_reveals (view : EditorView) (s s' : World) (w : Widget) (c : Coords.t) :
  requested view = Some w →
  coordsAtPos view (pos w) = Some c →
  PopupWidget.update view s = Done s' →
  styleOf s' (node w) "position" = "absolute"
  ∧ styleOf s' (node w) "left" = px (Coords.left c)
  ∧ styleOf s' (node w) "opacity" = "1"
  ∧ ∀ k, k ∉ ["position"; "left"; "opacity"; "top"] →
      styleOf s' (node w) k = styleOf s (node w) k.
Proof.
  intros Hreq Hc Hup.
  destruct (update_cases view s) as [n ? ? ? Hup'|s1 ? Hreq' ?|s1 w' ? Hreq' Hc' ?
                                    |s1 w' c' Hrm Hreq' Hc' Hup'].
  { by rewrite Hup' in Hup. }
  { by rewrite Hreq' in Hreq. }
  { rewrite Hreq' in Hreq. injection Hreq as ->. by rewrite Hc' in Hc. }
  assert (w' = w) as -> by congruence. assert (c' = c) as -> by congruence.
  assert (s' = shownAt w c s1) as -> by congruence.
  destruct (removeWidget_changes s s1 Hrm) as (_ & _ & Hst & _).
  rewrite !shownAt_style. repeat split.
  intros k Hk. rewrite shownAt_style.
  rewrite !not_elem_of_cons in Hk. destruct Hk as (? & ? & ? & ? & _).
  rewrite !decide_False by done. unfold styleOf. by rewrite Hst.
Qed.

Lemma update_reveals_witness :
  styleOf shownWorld 9 "position" = "absolute"
  ∧ styleOf shownWorld 9 "left" = "50px"
  ∧ styleOf shownWorld 9 "opacity" = "1".
Proof.
  destruct (update_reveals (sampleView (PWidget widgetA)) (PopupWidget.new sampleWorld)
              shownWorld widgetA (Coords.mk 100 50 120))
    as (Hpos & Hleft & Hop & _); try reflexivity.
  split; [exact Hpos|]. split; [exact Hleft|exact Hop].
Defined.

Lemma update_keeps_blurHook (view : EditorView) (s : World) :
  blurHook (world_of (PopupWidget.update view s)) = blurHook s.
Proof.
  destruct (update_cases view s) as [m ? ? ? Hup|s1 Hrm ? Hup|s1 w Hrm ? ? Hup
                                    |s1 w c Hrm ? ? Hup];
    rewrite Hup; simpl; [done|..];
    by destruct (removeWidget_changes s s1 Hrm) as (_ & _ & _ & _ & -> & _).
Qed.

(** X4: whatever is requested and however the call ends, [update] leaves
    the blur listener as it was and touches the inline style of no element
    other than the one requested. *)
Theorem update_frame (view : EditorView) (s : World) (n : Elem) :
  (∀ w, requested view = Some w → n ≠ node w) →
  styles (world_of (PopupWidget.update view s)) !! n = styles s !! n
  ∧ blurHook (world_of (PopupWidget.update view s)) = blurHook s.
Proof.
  intros Hother.
  split; [|apply update_keeps_blurHook].
  destruct (update_cases view s) as [m ? ? ? Hup|s1 Hrm ? Hup|s1 w Hrm ? ? Hup
                                    |s1 w c Hrm Hreq ? Hup];
    rewrite Hup; simpl; [done| | |];
    destruct (removeWidget_changes s s1 Hrm) as (_ & _ & Hst & _).
  - by rewrite Hst.
  - by rewrite Hst.
  - rewrite lookup_insert_ne, lookup_insert_ne by (intros <-; by apply (Hother w)).
    by rewrite Hst.
Qed.

Lemma update_frame_witness :
  styles shownWorld !! 1 = None ∧ blurHook shownWorld = true.
Proof.
  destruct (update_frame (sampleView (PWidget widgetA)) (PopupWidget.new sampleWorld) 1)
    as [Hst Hh].
  - by intros w [= <-].
  - split; [exact Hst|exact Hh].
Defined.

(** ** What a single [update] does to the body *)

Lemma filter_ne_idem (n : Elem) (l : list Elem) :
  filter (λ x, x ≠ n) (filter (λ x, x ≠ n) l) = filter (λ x, x ≠ n) l.
Proof. apply filter_all. by intros x [Hne _]%list_elem_of_filter. Qed.

Lemma NoDup_bodyWithout (p : option Elem) (b : list Elem) :
  NoDup b → NoDup (bodyWithout p b).
Proof. destruct p; simpl; [apply NoDup_filter|done]. Qed.

Lemma NoDup_filter_snoc (n : Elem) (l : list Elem) :
  NoDup l → NoDup (filter (λ x, x ≠ n) l ++ [n]).
Proof.
  intros Hnd. apply NoDup_app. split; [by apply NoDup_filter|]. split.
  - intros x [Hne _]%list_elem_of_filter Hx%list_elem_of_singleton. done.
  - apply NoDup_singleton.
Qed.

(** X5: an [update] that shows a widget takes the old popup and the new
    element out of the body, keeps every other child in its place and
    order, and puts the new element last; distinct children stay
    distinct. *)
Theorem update_body (view : EditorView) (s s' : World) (w : Widget) :
  requested view = Some w →
  PopupWidget.update view s = Done s' →
  body s' = filter (λ x, x ≠ node w) (bodyWithout (popup s) (body s)) ++ [node w]
  ∧ (NoDup (body s) → NoDup (body s')).
Proof.
  intros Hreq Hup.
  destruct (update_cases view s) as [n ? ? ? Hup'|s1 ? Hreq' ?|s1 w' ? Hreq' Hc' Hup'
                                    |s1 w' c Hrm Hreq' Hc Hup'].
  { by rewrite Hup' in Hup. }
  { by rewrite Hreq' in Hreq. }
  { by rewrite Hup' in Hup. }
  assert (w' = w) as -> by congruence.
  assert (s' = shownAt w c s1) as -> by congruence.
  destruct (removeWidget_changes s s1 Hrm) as (_ & Hb & _).
  destruct (shownAt_fields w c s1) as (_ & -> & _). rewrite Hb.
  split; [done|]. intros Hnd. by apply NoDup_filter_snoc, NoDup_bodyWithout.
Qed.

Lemma update_body_witness :
  body (world_of (PopupWidget.update
                    (sampleView (PWidget {| node := 1; style := StyleTop; pos := 0 |}))
                    shownWorld)) = [2; 1].
Proof.
  destruct (update_body
              (sampleView (PWidget {| node := 1; style := StyleTop; pos := 0 |}))
              shownWorld
              (world_of (PopupWidget.update
                 (sampleView (PWidget {| node := 1; style := StyleTop; pos := 0 |}))
                 shownWorld))
              {| node := 1; style := StyleTop; pos := 0 |}) as [Hb _];
    try reflexivity.
Defined.

(** X6: updating twice with the same request, the first call having
    succeeded: the second call succeeds too and leaves the body, the popup
    and the focus as the first did; for the style "below" the inline
    styles are the same as well. *)
Theorem update_same_request_twice (view : EditorView) (s s1 : World) (w : Widget) :
  requested view = Some w →
  PopupWidget.update view s = Done s1 →
  ∃ s2, PopupWidget.update view s1 = Done s2
    ∧ body s2 = body s1
    ∧ popup s2 = popup s1
    ∧ hostFocused s2 = hostFocused s1
    ∧ (style w = StyleBottom → styles s2 = styles s1).
Proof.
  intros Hreq Hup.
  destruct (update_cases view s) as [n ? ? ? Hup'|s0 ? Hreq' ?|s0 w' ? Hreq' Hc' Hup'
                                    |s0 w' c Hrm Hreq' Hc Hup'].
  { by rewrite Hup' in Hup. }
  { by rewrite Hreq' in Hreq. }
  { by rewrite Hup' in Hup. }
  assert (w' = w) as -> by congruence.
  assert (s1 = shownAt w c s0) as -> by congruence.
  assert (node w ∈ body (shownAt w c s0)) as Hin.
  { simpl. apply elem_of_app. right. by left. }
  pose proof (removeWidget_attached (shownAt w c s0) (node w) eq_refl Hin) as Hrm1.
  rewrite (update_shownAt view _ _ w c Hreq Hc Hrm1).
  eexists. split; [reflexivity|]. split; [|split; [done|split; [done|]]].
  - simpl. rewrite filter_app, filter_cons_False, filter_nil, app_nil_r
      by (intros Hne; by apply Hne).
    by rewrite !filter_ne_idem.
  - intros Hsty. unfold shownAt, measuredWorld, css, topOffset. rewrite Hsty. simpl.
    rewrite !lookup_insert_eq. simpl. rewrite !insert_insert_eq.
    f_equal. apply map_eq. intros k.
    rewrite !lookup_insert. repeat case_decide; done.
Qed.

Lemma update_same_request_twice_witness :
  ∃ s2, PopupWidget.update (sampleView (PWidget widgetA)) shownWorld = Done s2
    ∧ body s2 = [1; 2; 9] ∧ styles s2 = styles shownWorld.
Proof.
  destruct (update_same_request_twice (sampleView (PWidget widgetA))
              (PopupWidget.new sampleWorld) shownWorld widgetA)
    as (s2 & Hup & Hb & _ & _ & Hst); try reflexivity.
  exists s2. split; [exact Hup|]. split; [by rewrite Hb|]. by apply Hst.
Defined.

(** X7: from the constructor on: once an [update] has shown a widget, a
    ['blur'] on the editing surface removes its element from the body and
    clears [popup]; the listener stays registered. *)
Theorem blur_after_update_clears (view : EditorView) (s s1 : World) (w : Widget) :
  requested view = Some w →
  PopupWidget.update view (PopupWidget.new s) = Done s1 →
  ∃ s2, blurEvent s1 = Done s2
    ∧ popup s2 = None
    ∧ (node w ∉ body s2)
    ∧ body s2 = filter (λ x, x ≠ node w) (body s1)
    ∧ hostFocused s2 = false
    ∧ blurHook s2 = true.
Proof.
  intros Hreq Hup.
  destruct (update_shows view _ s1 w Hreq Hup) as (Hp & Hlast & _).
  assert (node w ∈ body s1) as Hin.
  { apply last_Some in Hlast as [l ->]. apply elem_of_app. right. by left. }
  assert (blurHook s1 = true) as Hh.
  { pose proof (update_keeps_blurHook view (PopupWidget.new s)) as Hk.
    by rewrite Hup in Hk. }
  unfold blurEvent. simpl. rewrite Hh.
  rewrite (removeWidget_attached _ (node w)) by done.
  eexists. split; [reflexivity|]. simpl.
  repeat split; auto using not_elem_of_filter_ne.
Qed.

Lemma blur_after_update_clears_witness :
  ∃ s2, blurEvent shownWorld = Done s2 ∧ popup s2 = None ∧ body s2 = [1; 2].
Proof.
  destruct (blur_after_update_clears (sampleView (PWidget widgetA)) sampleWorld
              shownWorld widgetA)
    as (s2 & Hblur & Hp & _ & Hb & _); try reflexivity.
  exists s2. split; [exact Hblur|]. split; [exact Hp|]. by rewrite Hb.
Defined.

(** ** When an [update] returns *)

Lemma bodySplit_attached (kept : list Elem) (s : World) :
  bodySplit kept s → popupAttached s.
Proof.
  intros [Hb _] n Hp. rewrite Hb, Hp. apply elem_of_app. right. by left.
Qed.

Lemma runUpdates_attached (views : list EditorView) (s0 : World) :
  popup s0 = None → popupAttached (runUpdates views s0).
Proof.
  intros Hp0. destruct (runUpdates_split views s0 Hp0) as [_ Hsplit].
  by eapply bodySplit_attached.
Qed.

(** X8: on a manager that started without popup, after any sequence of
    updates, the next [update] never fails in its teardown: it returns
    normally exactly when nothing is requested or the requested position
    resolves, and otherwise throws the lookup's error. *)
Theorem update_outcome (views : list EditorView) (s0 : World) (view : EditorView) :
  popup s0 = None →
  ((∃ s', PopupWidget.update view (runUpdates views s0) = Done s')
   ↔ ∀ w, requested view = Some w → is_Some (coordsAtPos view (pos w)))
  ∧ ∀ e s', PopupWidget.update view (runUpdates views s0) = Thrown e s' →
      e = PositionError.
Proof.
  intros Hp0. pose proof (runUpdates_attached views s0 Hp0) as Hatt.
  destruct (update_cases view (runUpdates views s0))
    as [n Hp Hn ? Hup|s1 Hrm Hreq Hup|s1 w Hrm Hreq Hc Hup|s1 w c Hrm Hreq Hc Hup].
  - by destruct Hn; apply Hatt.
  - rewrite Hup. split; [|done]. split; [|by eexists].
    intros _ w Hw. by rewrite Hreq in Hw.
  - rewrite Hup. split; [|by intros e s' [= <- _]]. split.
    + by intros [s' ?].
    + intros Hall. destruct (Hall w Hreq) as [c Hc']. by rewrite Hc in Hc'.
  - rewrite Hup. split; [|done]. split; [|by eexists].
    intros _ w' Hw'. assert (w' = w) as -> by congruence. by rewrite Hc.
Qed.

Lemma update_outcome_witness :
  ∃ s', PopupWidget.update (sampleView (PWidget widgetB))
          (runUpdates [sampleView (PWidget widgetA); sampleView PNull]
             (PopupWidget.new sampleWorld)) = Done s'.
Proof.
  destruct (update_outcome [sampleView (PWidget widgetA); sampleView PNull]
              (PopupWidget.new sampleWorld) (sampleView (PWidget widgetB)))
    as [[_ Hdone] _]; [reflexivity|].
  apply Hdone. intros w [= <-]. by eexists.
Defined.

(** ** [dispatchTransaction] and [addWidget], end to end *)

(** The calls of an [update] are calls on the DOM and the view: it emits
    no event. *)
Lemma update_emits_nothing (view : EditorView) (s : World) :
  ∃ calls, log (world_of (PopupWidget.update view s)) = log s ++ calls
    ∧ ∀ ev, Emit ev ∉ calls.
Proof.
  assert (∀ p ev, Emit ev ∉ RemoveChild <$> option_list p) as Hrem.
  { intros [n|] ev; simpl; [|apply not_elem_of_nil].
    by intros ?%list_elem_of_singleton. }
  destruct (update_cases view s) as [n ? ? ? Hup|s1 Hrm ? Hup|s1 w Hrm ? ? Hup
                                    |s1 w c Hrm ? ? Hup]; rewrite Hup.
  - exists []. simpl. rewrite app_nil_r. split; [done|].
    intros ev. apply not_elem_of_nil.
  - destruct (removeWidget_changes s s1 Hrm) as (_ & _ & _ & _ & _ & _ & Hlog).
    eexists. split; [exact Hlog|]. apply Hrem.
  - destruct (removeWidget_changes s s1 Hrm) as (_ & _ & _ & _ & _ & _ & Hlog).
    eexists. simpl. rewrite Hlog, <- app_assoc. split; [done|].
    intros ev [?%Hrem|?%list_elem_of_singleton]%elem_of_app; done.
  - destruct (removeWidget_changes s s1 Hrm) as (_ & _ & _ & _ & _ & _ & Hlog).
    destruct (shownAt_fields w c s1) as (_ & _ & _ & _ & _ & Hlog').
    eexists. simpl in *. rewrite Hlog', Hlog, <- app_assoc. split; [done|].
    intros ev [?%Hrem|Hin]%elem_of_app; [done|].
    repeat (apply elem_of_cons in Hin as [?|Hin]; [done|]).
    by apply elem_of_nil in Hin.
Qed.

(** X9: [dispatchTransaction] hands the view its new state before the
    plugin view is updated, and reports the change only after that
    update has returned.  When the update throws, the error goes through,
    no event is emitted, and the view keeps the new state all the same;
    when it returns, ['caretChange'] is emitted, followed by ['change'] if
    the document changed, and nothing else is touched. *)
Theorem dispatch_events (t : Transaction) (view : EditorView) (s : World) :
  state (WysiwygEditor.dispatchTransaction t view s).1 = applyTransaction (state view) t
  ∧ match (WysiwygEditor.dispatchTransaction t view s).2 with
    | Thrown e s' =>
        PopupWidget.update (WysiwygEditor.dispatchTransaction t view s).1 s
        = Thrown e s'
        ∧ ∃ calls, log s' = log s ++ calls ∧ ∀ ev, Emit ev ∉ calls
    | Done s' =>
        ∃ s1, PopupWidget.update (WysiwygEditor.dispatchTransaction t view s).1 s
              = Done s1
          ∧ log s' = log s1 ++ Emit "caretChange"
                       :: (if docChanged t then [Emit "change"] else [])
          ∧ body s' = body s1 ∧ popup s' = popup s1 ∧ styles s' = styles s1
          ∧ hostFocused s' = hostFocused s1
    end.
Proof.
  unfold WysiwygEditor.dispatchTransaction, WysiwygEditor.updateState. simpl.
  split; [done|].
  set (view' := {| state := applyTransaction (state view) t;
                   coordsAtPos := coordsAtPos view |}).
  pose proof (update_emits_nothing view' s) as Hemit.
  destruct (PopupWidget.update view' s) as [s1|e s1]; simpl.
  - exists s1. split; [done|]. unfold WysiwygEditor.emitChangeEvent.
    destruct (docChanged t); simpl; by rewrite <- ?app_assoc.
  - done.
Qed.

(** What [addWidget] dispatches makes the view request the widget. *)
Lemma addWidget_unfold (n : Elem) (sty : WidgetStyle) (p : option Z)
    (view : EditorView) (s : World) :
  let w := {| node := n; style := sty; pos := default (to (selection (state view))) p |} in
  let view' := {| state := {| selection := selection (state view);
                              widgetField := PWidget w |};
                  coordsAtPos := coordsAtPos view |} in
  WysiwygEditor.addWidget n sty p view s
  = (view', andThen (PopupWidget.update view' s)
              (λ s1, Done (logCall (Emit "caretChange") s1))).
Proof.
  unfold WysiwygEditor.addWidget, WysiwygEditor.dispatchTransaction,
    WysiwygEditor.updateState, applyTransaction, Plugin.apply.
  simpl. by rewrite getMeta_setMeta.
Qed.

(** X10: [addWidget(node, style, pos)] shows the widget before it
    returns.  With the popup (if any) attached and the anchor resolving,
    the call returns with the element as popup and last child of the body,
    revealed at the anchor's left, the old popup gone, the focus on the
    editing surface; the first call after the teardown is the lookup at
    the anchor, and the last one is the ['caretChange'] event, with no
    ['change'] event. *)
Theorem addWidget_shows (n : Elem) (sty : WidgetStyle) (p : option Z)
    (view : EditorView) (s : World) (c : Coords.t) :
  popupAttached s →
  coordsAtPos view (default (to (selection (state view))) p) = Some c →
  ∃ s', (WysiwygEditor.addWidget n sty p view s).2 = Done s'
    ∧ popup s' = Some n
    ∧ body s' = filter (λ x, x ≠ n) (bodyWithout (popup s) (body s)) ++ [n]
    ∧ styleOf s' n "left" = px (Coords.left c)
    ∧ styleOf s' n "opacity" = "1"
    ∧ hostFocused s' = true
    ∧ ∃ calls,
        log s' = log s ++ (RemoveChild <$> option_list (popup s))
                 ++ CoordsAtPos (default (to (selection (state view))) p) :: calls
        ∧ last calls = Some (Emit "caretChange")
        ∧ Emit "change" ∉ calls.
Proof.
  intros Hatt Hc. rewrite addWidget_unfold. simpl.
  set (w := {| node := n; style := sty;
               pos := default (to (selection (state view))) p |}).
  set (view' := {| state := _; coordsAtPos := _ |}).
  destruct (removeWidget_when_attached s Hatt) as [s1 Hrm].
  destruct (removeWidget_changes s s1 Hrm) as (_ & Hb & _ & _ & _ & _ & Hlog).
  rewrite (update_shownAt view' s s1 w c eq_refl Hc Hrm). simpl.
  eexists. split; [reflexivity|].
  split; [done|]. split; [simpl; by rewrite Hb|].
  split; [apply (shownAt_style w c s1 "left")|].
  split; [apply (shownAt_style w c s1 "opacity")|].
  split; [done|].
  eexists. split; [|split].
  - simpl. rewrite Hlog, <- !app_assoc. simpl. reflexivity.
  - reflexivity.
  - intros Hin.
    repeat (apply elem_of_cons in Hin as [?|Hin]; [done|]).
    by apply elem_of_nil in Hin.
Qed.

Lemma addWidget_shows_witness :
  ∃ s', (WysiwygEditor.addWidget 8 StyleTop None (sampleView PNull) shownWorld).2
        = Done s'
    ∧ popup s' = Some 8 ∧ body s' = [1; 2; 8] ∧ styleOf s' 8 "left" = "50px".
Proof.
  destruct (addWidget_shows 8 StyleTop None (sampleView PNull) shownWorld
              (Coords.mk 100 50 120))
    as (s' & Hadd & Hp & Hb & Hleft & _); [|reflexivity|].
  - intros n [= <-]. change (9 ∈ [1; 2; 9]). do 2 right. left.
  - exists s'. split; [exact Hadd|]. split; [exact Hp|].
    split; [by rewrite Hb|exact Hleft].
Defined.

(** X11: a second [addWidget] replaces the widget of the first.  The
    first call having returned and the second anchor resolving, the second
    call returns with its element as popup and last child of the body, and
    the element of the first call, when it is another one, is no longer in
    the body. *)
Theorem addWidget_replaces (n1 n2 : Elem) (sty1 sty2 : WidgetStyle) (p1 p2 : option Z)
    (view view1 : EditorView) (s s1 : World) :
  WysiwygEditor.addWidget n1 sty1 p1 view s = (view1, Done s1) →
  is_Some (coordsAtPos view1 (default (to (selection (state view1))) p2)) →
  ∃ s2, (WysiwygEditor.addWidget n2 sty2 p2 view1 s1).2 = Done s2
    ∧ popup s2 = Some n2
    ∧ last (body s2) = Some n2
    ∧ body s2 = filter (λ x, x ≠ n2) (filter (λ x, x ≠ n1) (body s1)) ++ [n2]
    ∧ (n1 ≠ n2 → n1 ∉ body s2).
Proof.
  intros Hfirst [c Hc].
  rewrite addWidget_unfold in Hfirst. simpl in Hfirst.
  injection Hfirst as Hview Hout.
  match type of Hout with andThen (PopupWidget.update ?v _) _ = _ =>
    destruct (PopupWidget.update v s) as [s0|e s0] eqn:Hup end; [|done].
  simpl in Hout. injection Hout as <-.
  eapply (update_shows _ s s0) in Hup as (Hp & Hlast & _); [|reflexivity].
  simpl in Hp, Hlast.
  assert (n1 ∈ body s0) as Hin.
  { apply last_Some in Hlast as [l ->]. apply elem_of_app. right. by left. }
  rewrite addWidget_unfold. simpl.
  set (w := {| node := n2; style := sty2;
               pos := default (to (selection (state view1))) p2 |}).
  set (view' := {| state := _; coordsAtPos := _ |}).
  pose proof (removeWidget_attached (logCall (Emit "caretChange") s0) n1 Hp Hin) as Hrm.
  rewrite (update_shownAt view' _ _ w c eq_refl Hc Hrm). simpl.
  eexists. split; [reflexivity|]. simpl.
  split; [done|]. split; [by rewrite last_snoc|]. split; [done|].
  intros Hne [Hin'|Hin']%elem_of_app.
  - apply list_elem_of_filter in Hin' as [_ Hin'].
    by apply not_elem_of_filter_ne in Hin'.
  - by apply list_elem_of_singleton in Hin'.
Qed.

Lemma addWidget_replaces_witness :
  ∃ s2, (WysiwygEditor.addWidget 8 StyleTop (Some 5%Z)
           (WysiwygEditor.addWidget 9 StyleBottom None (sampleView PNull)
              (PopupWidget.new sampleWorld)).1
           (world_of (WysiwygEditor.addWidget 9 StyleBottom None (sampleView PNull)
                        (PopupWidget.new sampleWorld)).2)).2 = Done s2
    ∧ body s2 = [1; 2; 8].
Proof.
  destruct (addWidget_replaces 9 8 StyleBottom StyleTop None (Some 5%Z)
              (sampleView PNull)
              (WysiwygEditor.addWidget 9 StyleBottom None (sampleView PNull)
                 (PopupWidget.new sampleWorld)).1
              (PopupWidget.new sampleWorld)
              (world_of (WysiwygEditor.addWidget 9 StyleBottom None (sampleView PNull)
                           (PopupWidget.new sampleWorld)).2))
    as (s2 & Hadd & _ & _ & Hb & _); [reflexivity|by eexists|].
  exists s2. split; [exact Hadd|]. by rewrite Hb.
Defined.

(** ** base.ts *)

(** X12: [setPlaceholder(text)] stores the text and dispatches a
    transaction that carries no widget request.  With the popup (if any)
    attached it returns normally; the selection is kept, the request is
    cleared, a shown popup is removed from the body, and the calls made are
    that [removeChild] and the ['caretChange'] event, with no ['change']
    event. *)
Theorem setPlaceholder_dismisses (text : string) (ed : EditorBase.t) (s : World) :
  popupAttached s →
  ∃ s', (EditorBase.setPlaceholder text ed s).2 = Done s'
    ∧ EditorBase.placeholderText (EditorBase.setPlaceholder text ed s).1 = text
    ∧ EditorBase.el (EditorBase.setPlaceholder text ed s).1 = EditorBase.el ed
    ∧ selection (state (EditorBase.view (EditorBase.setPlaceholder text ed s).1))
      = selection (state (EditorBase.view ed))
    ∧ requested (EditorBase.view (EditorBase.setPlaceholder text ed s).1) = None
    ∧ popup s' = None
    ∧ body s' = bodyWithout (popup s) (body s)
    ∧ styles s' = styles s
    ∧ log s' = log s ++ (RemoveChild <$> option_list (popup s))
               ++ [Emit "caretChange"].
Proof.
  intros Hatt. unfold EditorBase.setPlaceholder.
  rewrite dispatch_unrelated by done.
  destruct (removeWidget_when_attached s Hatt) as [s1 Hrm].
  destruct (removeWidget_changes s s1 Hrm) as (Hp & Hb & Hst & _ & _ & _ & Hlog).
  rewrite Hrm. simpl.
  eexists. split; [reflexivity|]. simpl.
  rewrite Hlog, <- app_assoc. done.
Qed.

Lemma setPlaceholder_dismisses_witness :
  ∃ s', (EditorBase.setPlaceholder "Type here" sampleEditor shownWorld).2 = Done s'
    ∧ popup s' = None ∧ body s' = [1; 2].
Proof.
  destruct (setPlaceholder_dismisses "Type here" sampleEditor shownWorld)
    as (s' & Hset & _ & _ & _ & _ & Hp & Hb & _).
  - intros n [= <-]. change (9 ∈ [1; 2; 9]). do 2 right. left.
  - exists s'. split; [exact Hset|]. split; [exact Hp|]. by rewrite Hb.
Defined.

Lemma string_app_inj_r (t s1 s2 : string) : s1 +:+ t = s2 +:+ t → s1 = s2.
Proof.
  assert (∀ u, String.length (u +:+ t) = String.length u + String.length t) as Hlen.
  { induction u as [|a u IH]; simpl; [done|]. by rewrite IH. }
  revert s2. induction s1 as [|a s1 IH]; intros [|b s2] Heq; simpl in *.
  - done.
  - apply (f_equal String.length) in Heq.
    rewrite !Hlen in Heq. simpl in Heq. lia.
  - apply (f_equal String.length) in Heq.
    rewrite !Hlen in Heq. simpl in Heq. lia.
  - injection Heq as -> Heq. f_equal. by apply IH.
Qed.

(** Different pixel values are rendered differently. *)
Lemma px_inj (a b : Z) : px a = px b → a = b.
Proof. intros Heq%string_app_inj_r. by apply (inj pretty). Qed.

Lemma styleOf_cssLength (n : Elem) (key : string) (v : Z) (s : World)
    (m : Elem) (k : string) :
  styleOf (EditorBase.cssLength n key v s) m k
  = if decide (0 ≤ v ∧ m = n ∧ k = key)%Z then px v else styleOf s m k.
Proof.
  unfold EditorBase.cssLength. destruct (decide (0 ≤ v)%Z) as [Hv|Hv].
  - destruct (decide (m = n)) as [->|Hne].
    + rewrite styleOf_css1. destruct (decide (k = key)) as [->|Hk].
      * by rewrite decide_True.
      * by rewrite decide_False by (by intros (_ & _ & ?)).
    + rewrite styleOf_css_other by done.
      by rewrite decide_False by (by intros (_ & ? & _)).
  - by rewrite decide_False by (by intros (? & _)).
Qed.

(** X13: [setHeight] and [setMinHeight] with lengths that are not
    negative write one inline property each of the editor's element: after
    both, [height] and [minHeight] read back as given, every other
    property and every other element is untouched, a later [setHeight]
    wins, and two heights leave the same style only when they are equal.
    A negative length changes no style at all. *)
Theorem setHeight_setMinHeight (h m : Z) (ed : EditorBase.t) (s : World) :
  (0 ≤ h)%Z → (0 ≤ m)%Z →
  let s' := EditorBase.setMinHeight m ed (EditorBase.setHeight h ed s) in
  styleOf s' (EditorBase.el ed) "height" = px h
  ∧ styleOf s' (EditorBase.el ed) "minHeight" = px m
  ∧ (∀ k, k ≠ "height" → k ≠ "minHeight" →
       styleOf s' (EditorBase.el ed) k = styleOf s (EditorBase.el ed) k)
  ∧ (∀ n k, n ≠ EditorBase.el ed → styleOf s' n k = styleOf s n k)
  ∧ body s' = body s ∧ popup s' = popup s
  ∧ (∀ h', (0 ≤ h')%Z →
       styleOf (EditorBase.setHeight h' ed s') (EditorBase.el ed) "height" = px h')
  ∧ (∀ h2, (0 ≤ h2)%Z →
       styleOf (EditorBase.setHeight h ed s) (EditorBase.el ed) "height"
       = styleOf (EditorBase.setHeight h2 ed s) (EditorBase.el ed) "height" →
       h = h2)
  ∧ (∀ v n k, (v < 0)%Z →
       styleOf (EditorBase.setHeight v ed s) n k = styleOf s n k
       ∧ styleOf (EditorBase.setMinHeight v ed s) n k = styleOf s n k).
Proof.
  intros Hh Hm. unfold EditorBase.setHeight, EditorBase.setMinHeight. simpl.
  split; [|split; [|split; [|split; [|split; [|split; [|split; [|split]]]]]]].
  - rewrite !styleOf_cssLength.
    rewrite decide_False by (by intros (_ & _ & ?)). by rewrite decide_True.
  - rewrite !styleOf_cssLength. by rewrite decide_True.
  - intros k Hk1 Hk2. rewrite !styleOf_cssLength.
    by rewrite !decide_False by (by intros (_ & _ & ?)).
  - intros n k Hne. rewrite !styleOf_cssLength.
    by rewrite !decide_False by (by intros (_ & ? & _)).
  - unfold EditorBase.cssLength. by rewrite !decide_True.
  - unfold EditorBase.cssLength. by rewrite !decide_True.
  - intros h' Hh'. rewrite styleOf_cssLength. by rewrite decide_True.
  - intros h2 Hh2. rewrite !styleOf_cssLength.
    rewrite !decide_True by done. apply px_inj.
  - intros v n k Hv. rewrite !styleOf_cssLength.
    by rewrite !decide_False by (intros (? & _); lia).
Qed.

Lemma setHeight_setMinHeight_witness :
  styleOf (EditorBase.setMinHeight 200 sampleEditor
             (EditorBase.setHeight 300 sampleEditor shownWorld)) 0 "height" = "300px"
  ∧ styleOf (EditorBase.setMinHeight 200 sampleEditor
               (EditorBase.setHeight 300 sampleEditor shownWorld)) 0 "minHeight"
    = "200px".
Proof.
  destruct (setHeight_setMinHeight 300 200 sampleEditor shownWorld)
    as (Hheight & Hmin & _); [lia..|].
  split; [exact Hheight|exact Hmin].
Defined.

(** ** Showing and clearing *)

(** X15: a manager that started without popup, after a sequence of updates
    whose last one shows nothing.  No popup is left; if none of the
    elements shown on the way was a child of the body at the start, the
    body is exactly what it was; a child of the body that was shown as a
    widget, on the other hand, is not put back. *)
Theorem show_and_clear (views : list EditorView) (s0 : World) :
  popup s0 = None →
  last views ≫= resolved = None →
  popup (runUpdates views s0) = None
  ∧ ((∀ x, x ∈ omap resolved views → x ∉ body s0) →
     body (runUpdates views s0) = body s0)
  ∧ (∀ x, x ∈ body s0 → x ∈ omap resolved views → x ∉ body (runUpdates views s0))
  ∧ (∀ x, x ∈ body s0 → x ∉ omap resolved views → x ∈ body (runUpdates views s0)).
Proof.
  intros Hp0 Hlast.
  destruct (runUpdates_split views s0 Hp0) as [Hp [Hb _]].
  rewrite Hlast in Hp. rewrite Hp in Hb. simpl in Hb. rewrite app_nil_r in Hb.
  split; [done|]. rewrite Hb. split; [|split].
  - intros Hfresh. apply filter_all. intros x Hx Hshown. by apply (Hfresh x).
  - intros x _ Hshown [Hnot _]%list_elem_of_filter. done.
  - intros x Hx Hnot. by apply list_elem_of_filter.
Qed.

Lemma show_and_clear_witness :
  body (runUpdates [sampleView (PWidget widgetA); sampleView (PWidget widgetB);
                    sampleView PUndefined] (PopupWidget.new sampleWorld))
  = [1; 2].
Proof.
  destruct (show_and_clear [sampleView (PWidget widgetA); sampleView (PWidget widgetB);
                            sampleView PUndefined] (PopupWidget.new sampleWorld))
    as (_ & Hsame & _); [reflexivity..|].
  rewrite Hsame; [reflexivity|].
  intros x Hx. change (x ∈ [9; 8]) in Hx. change (x ∉ [1; 2]).
  apply elem_of_cons in Hx as [->|Hx]; [|apply list_elem_of_singleton in Hx as ->];
    rewrite !not_elem_of_cons; repeat split; (done || apply not_elem_of_nil).
Defined.
